(** * Configuration drift monitor: the drift check and its orchestration

    A shallow embedding of [main.py]: the watchdog handler
    [ConfigChangeHandler] ([on_modified], [check_config_drift]), the start-up
    validation [validate_input] and the control flow of [main].

    The program talks to three things it does not define: the filesystem
    ([os.path], [open]), the YAML parser ([yaml.safe_load]) and the
    structural comparison ([deepdiff.DeepDiff]).  The filesystem is a finite
    map from paths to nodes, a file being represented by what
    [open] + [yaml.safe_load] give on it; the comparison is a recursive
    function on parsed documents. *)

From Stdlib Require Import ZArith Ascii String.
From stdpp Require Import base option list strings gmap.

Local Open Scope string_scope.
Local Open Scope list_scope.

(** ** Parsed documents *)

Module Document.

(** The scalars a YAML document holds.  [SNull] is Python's [None]: the
    value of a YAML [null], and what [yaml.safe_load] returns for an empty
    stream.  Floats and timestamps are left out. *)
Inductive Scalar :=
| SNull
| SBool (b : bool)
| SInt (z : Z)
| SStr (s : string).

(** What [yaml.safe_load] returns: scalars, lists and dicts.  A dict keeps
    its entries in insertion order and has each key once ([well_formed]). *)
#[warnings="-register-all"]
Inductive Value :=
| Scal (s : Scalar)
| Seq (items : list Value)
| Map (entries : list (string * Value)).

Inductive Kind := KNull | KBool | KInt | KStr | KSeq | KMap.

Definition scalar_kind (s : Scalar) : Kind :=
  match s with
  | SNull => KNull
  | SBool _ => KBool
  | SInt _ => KInt
  | SStr _ => KStr
  end.

Definition kind_of (v : Value) : Kind :=
  match v with
  | Scal s => scalar_kind s
  | Seq _ => KSeq
  | Map _ => KMap
  end.

#[global] Instance Scalar_eq_dec : EqDecision Scalar.
Proof. solve_decision. Defined.

#[global] Instance Kind_eq_dec : EqDecision Kind.
Proof. solve_decision. Defined.

(** [d[k]] / [k in d] on the entry list of a dict. *)
Fixpoint dict_get {A} (k : string) (d : list (string * A)) : option A :=
  match d with
  | [] => None
  | (k', v) :: d' => if decide (k = k') then Some v else dict_get k d'
  end.

Definition dict_has {A} (k : string) (d : list (string * A)) : bool :=
  match dict_get k d with Some _ => true | None => false end.

Fixpoint distinct (ks : list string) : bool :=
  match ks with
  | [] => true
  | k :: ks' => negb (bool_decide (k ∈ ks')) && distinct ks'
  end.

(** A document as Python can hold it: no dict has a key twice, at any
    depth. *)
Fixpoint well_formed (v : Value) : bool :=
  match v with
  | Scal _ => true
  | Seq xs => forallb well_formed xs
  | Map es => distinct es.*1 && forallb (λ e, well_formed (snd e)) es
  end.

End Document.

Export Document.

(** ** The structural comparison *)

Module Diff.

Inductive PathElem := Key (k : string) | Index (i : nat).

Inductive DiffKind := Added | Removed | Changed | TypeChanged.

(** One difference between two documents, as in the data model of the
    specification (section 3). *)
Record DiffEntry := mkEntry {
  path : list PathElem;
  kind : DiffKind;
  oldValue : option Value;
  newValue : option Value
}.

(** An entry found below [p] is reported with [p] in front of its path. *)
Definition under (p : PathElem) (e : DiffEntry) : DiffEntry :=
  mkEntry (p :: path e) (kind e) (oldValue e) (newValue e).

Definition is_empty {A} (l : list A) : bool :=
  match l with [] => true | _ => false end.

(** The list and dict rules of the comparison, over the comparison [cmp] of
    the items themselves. *)
Section Items.

Variable cmp : Value → Value → list DiffEntry.

(** Two items compare equal when their diff is empty. *)
Definition same (x y : Value) : bool := is_empty (cmp x y).

(** Is there an item of [xs] that compares equal to [y]? *)
Fixpoint found (y : Value) (xs : list Value) : bool :=
  match xs with
  | [] => false
  | x :: xs' => same x y || found y xs'
  end.

(** The items of the first list with no equal in [ys]. *)
Fixpoint removed_items (ys : list Value) (i : nat) (xs : list Value)
  : list DiffEntry :=
  match xs with
  | [] => []
  | x :: xs' =>
      (if existsb (same x) ys then []
       else [mkEntry [Index i] Removed (Some x) None])
      ++ removed_items ys (S i) xs'
  end.

(** The items of the second list with no equal in [xs]. *)
Fixpoint added_items (xs : list Value) (j : nat) (ys : list Value)
  : list DiffEntry :=
  match ys with
  | [] => []
  | y :: ys' =>
      (if found y xs then []
       else [mkEntry [Index j] Added None (Some y)])
      ++ added_items xs (S j) ys'
  end.

(** The keys of the first dict: gone from the second, or compared
    value against value. *)
Fixpoint baseline_keys (fs es : list (string * Value)) : list DiffEntry :=
  match es with
  | [] => []
  | (k, v) :: es' =>
      match dict_get k fs with
      | Some w => under (Key k) <$> cmp v w
      | None => [mkEntry [Key k] Removed (Some v) None]
      end ++ baseline_keys fs es'
  end.

End Items.

(** The keys that only the second dict has. *)
Definition added_keys (es fs : list (string * Value)) : list DiffEntry :=
  flat_map (λ e, if dict_has (fst e) es then []
                 else [mkEntry [Key (fst e)] Added None (Some (snd e))]) fs.

(** Modelled from the spec: [DeepDiff] belongs to the third-party package
    [deepdiff], which [main.py] imports and whose code is not part of the
    repository.  This is the recursive structural diff of the
    specification (section 4.2) over the entry type of its data model:
    scalars are compared by kind and value, dicts key by key, and values
    of different kinds give one [TypeChanged] entry.  Sequences are
    compared the way the call on line 76 asks for: [ignore_order=True] is
    passed and [report_repetition] is left at the package's default
    ([False]), under which an item of one list is reported when no item
    of the other list compares equal to it, wherever it stands and however
    many times it occurs. *)
Fixpoint DeepDiff (t1 t2 : Value) {struct t1} : list DiffEntry :=
  match t1, t2 with
  | Scal a, Scal b =>
      if decide (a = b) then []
      else if decide (scalar_kind a = scalar_kind b)
           then [mkEntry [] Changed (Some t1) (Some t2)]
           else [mkEntry [] TypeChanged (Some t1) (Some t2)]
  | Seq xs, Seq ys =>
      removed_items (λ x y, DeepDiff x y) ys 0 xs
      ++ added_items (λ x y, DeepDiff x y) xs 0 ys
  | Map es, Map fs =>
      baseline_keys (λ v w, DeepDiff v w) fs es ++ added_keys es fs
  | _, _ => [mkEntry [] TypeChanged (Some t1) (Some t2)]
  end.

End Diff.

Export Diff.

(** ** Paths: the functions of [os.path] the program calls (POSIX) *)

Module posixpath.

Definition sep : ascii := "/"%char.

Definition is_sep (c : ascii) : bool := bool_decide (c = sep).

Definition chars (p : string) : list ascii := list_ascii_of_string p.
Definition str (cs : list ascii) : string := string_of_list_ascii cs.

Fixpoint lstrip (f : ascii → bool) (cs : list ascii) : list ascii :=
  match cs with
  | [] => []
  | c :: cs' => if f c then lstrip f cs' else cs
  end.

Definition isabs (p : string) : bool :=
  match chars p with
  | c :: _ => is_sep c
  | [] => false
  end.

Definition endswith_sep (p : string) : bool :=
  match rev (chars p) with
  | c :: _ => is_sep c
  | [] => false
  end.

(** [os.path.join(a, b)]: an absolute [b] replaces [a]; otherwise [b] is
    appended, with a separator unless [a] is empty or ends with one. *)
Definition join (a b : string) : string :=
  if isabs b then b
  else if bool_decide (a = "") || endswith_sep a then a +:+ b
  else a +:+ "/" +:+ b.

(** [os.path.dirname(p)]: everything up to the last separator, without
    trailing separators unless it consists of separators only. *)
Definition dirname (p : string) : string :=
  let head := rev (lstrip (λ c, negb (is_sep c)) (rev (chars p))) in
  if negb (is_empty head) && negb (forallb is_sep head)
  then str (rev (lstrip is_sep (rev head)))
  else str head.

Fixpoint split_sep (cur : list ascii) (cs : list ascii) : list string :=
  match cs with
  | [] => [str (rev cur)]
  | c :: cs' =>
      if is_sep c then str (rev cur) :: split_sep [] cs'
      else split_sep (c :: cur) cs'
  end.

Fixpoint join_sep (comps : list string) : string :=
  match comps with
  | [] => ""
  | [c] => c
  | c :: comps' => c +:+ "/" +:+ join_sep comps'
  end.

Definition startswith (pre p : string) : bool := String.prefix pre p.

(** [os.path.normpath(path)]: empty and [.] components dropped, [..]
    resolved against the component before it. *)
Definition normpath (path : string) : string :=
  if bool_decide (path = "") then "."
  else
    let initial_slashes : nat :=
      if negb (startswith "/" path) then 0
      else if startswith "//" path && negb (startswith "///" path) then 2
      else 1 in
    let new_comps :=
      foldl (λ (acc : list string) (comp : string),
               if bool_decide (comp = "") || bool_decide (comp = ".") then acc
               else if negb (bool_decide (comp = ".."))
                       || (bool_decide (initial_slashes = 0) && is_empty acc)
                       || bool_decide (last acc = Some "..")
                    then acc ++ [comp]
                    else removelast acc)
            [] (split_sep [] (chars path)) in
    let path' := str (replicate initial_slashes sep) +:+ join_sep new_comps in
    if bool_decide (path' = "") then "." else path'.

(** [os.path.abspath(path)] in the working directory [cwd]. *)
Definition abspath (cwd path : string) : string :=
  normpath (if isabs path then path else join cwd path).

End posixpath.

(** ** Exceptions, the filesystem and the log *)

(** The exceptions a check can meet; all are subclasses of [Exception]. *)
Inductive Exn :=
| FileNotFoundError (p : string)
| IsADirectoryError (p : string)
| OSError (msg : string)
| YAMLError (msg : string)
| KeyError (key : string)
| RuntimeError (msg : string).

(** A path leads to a directory or to a file.  A file is represented by
    what [open] followed by [yaml.safe_load] gives on it: the exception
    raised (the file cannot be read, or is not valid YAML) or the parsed
    document. *)
Inductive Node :=
| Directory
| File (load : Exn + Value).

(** Modelled from the spec: [yaml.safe_load] belongs to the third-party
    package PyYAML, whose code is not part of the repository.  An empty
    file loads, with no error, to the explicit empty-document value
    (Python's [None]). *)
Definition empty_file : Node := File (inr (Scal SNull)).

(** What a check sees of its surroundings: the filesystem at the time of
    the check, and [str(diff)], which the f-string of the drift warning
    evaluates and which, as any call, either returns or raises. *)
Record World := mkWorld {
  fs : gmap string Node;
  str_diff : list DiffEntry → Exn + string
}.

Definition path_exists (fs : gmap string Node) (p : string) : bool :=
  bool_decide (is_Some (fs !! p)).

Definition isdir (fs : gmap string Node) (p : string) : bool :=
  match fs !! p with Some Directory => true | _ => false end.

Definition isfile (fs : gmap string Node) (p : string) : bool :=
  match fs !! p with Some (File _) => true | _ => false end.

Inductive Level := DEBUG | INFO | WARNING | ERROR.

(** The [ValueError]s of [validate_input]. *)
Inductive ValueError :=
| CountMismatch
| BaselineDirMissing (baseline_dir : string)
| ConfigFileMissing (config_file : string).

(** One constructor for each message the program logs, holding the values
    its f-string interpolates. *)
Inductive Message :=
| BaselineNotFound (baseline_path : string)
| DriftDetected (config_name filepath diff : string)
| NoDrift (config_name : string)
| CheckFailed (filepath : string) (e : Exn)
| InputValidationError (e : ValueError)
| WatchingDirectory (directory : string)
| MonitorStarted
| MonitorStopped.

(** What the program does to the outside, in order. *)
Inductive Effect :=
| Exists (p : string)
| LoadYaml (p : string)
| Log (lvl : Level) (m : Message)
| SetLevel (lvl : Level)
| Schedule (directory : string)
| ObserverStart
| Sleep (interval : Z)
| ObserverStop
| ObserverJoin.

Definition logs (t : list Effect) : list (Level * Message) :=
  omap (λ f, match f with Log lvl m => Some (lvl, m) | _ => None end) t.

(** ** Computations that act on the outside and may raise *)

Definition M (A : Type) : Type := list Effect * (Exn + A).

Definition ret {A} (a : A) : M A := ([], inr a).

Definition raise {A} (e : Exn) : M A := ([], inl e).

Definition bind {A B} (m : M A) (k : A → M B) : M B :=
  match m with
  | (t, inl e) => (t, inl e)
  | (t, inr a) => let '(t', r) := k a in (t ++ t', r)
  end.

(** [try: body except Exception as e: handler e] *)
Definition try_except {A} (body : M A) (handler : Exn → M A) : M A :=
  match body with
  | (t, inl e) => let '(t', r) := handler e in (t ++ t', r)
  | (t, inr a) => (t, inr a)
  end.

Definition effect (f : Effect) : M unit := ([f], inr tt).

Definition lift {A} (r : Exn + A) : M A := ([], r).

Notation "'let!' x ':=' m 'in' k" := (bind m (λ x, k))
  (at level 10, x name, m at level 100, k at level 200, only parsing).
Notation "'do!' m 'in' k" := (bind m (λ _, k))
  (at level 10, m at level 100, k at level 200, only parsing).

Definition trace {A} (m : M A) : list Effect := fst m.
Definition outcome {A} (m : M A) : Exn + A := snd m.

(** ** [ConfigChangeHandler] *)

Record ConfigChangeHandler := mkHandler {
  config_files : gmap string string;
  baseline_dir : string;
  version_control : bool
}.

Record Event := mkEvent {
  is_directory : bool;
  src_path : string
}.

(** [self.config_files[filepath]] *)
Definition getitem (d : gmap string string) (k : string) : M string :=
  match d !! k with
  | Some v => ret v
  | None => raise (KeyError k)
  end.

(** [os.path.exists(p)] *)
Definition os_path_exists (w : World) (p : string) : M bool :=
  do! effect (Exists p) in ret (path_exists (fs w) p).

(** What opening [p] and parsing it as YAML gives. *)
Definition read (fs : gmap string Node) (p : string) : Exn + Value :=
  match fs !! p with
  | None => inl (FileNotFoundError p)
  | Some Directory => inl (IsADirectoryError p)
  | Some (File r) => r
  end.

(** [with open(p, "r") as f: yaml.safe_load(f)] *)
Definition safe_load (w : World) (p : string) : M Value :=
  do! effect (LoadYaml p) in lift (read (fs w) p).

Definition logger (lvl : Level) (m : Message) : M unit := effect (Log lvl m).

(** The body of the [try] of [check_config_drift], lines 64 to 86. *)
Definition check_config_drift_body
    (self : ConfigChangeHandler) (w : World) (filepath : string) : M unit :=
  let! config_name := getitem (config_files self) filepath in
  let baseline_path :=
    posixpath.join (baseline_dir self) (config_name +:+ ".yaml") in
  let! found := os_path_exists w baseline_path in
  if negb found then logger ERROR (BaselineNotFound baseline_path)
  else
    let! current_config := safe_load w filepath in
    let! baseline_config := safe_load w baseline_path in
    let diff := DeepDiff baseline_config current_config in
    if negb (is_empty diff) then
      let! text := lift (str_diff w diff) in
      logger WARNING (DriftDetected config_name filepath text)
    else logger INFO (NoDrift config_name).

Definition check_config_drift
    (self : ConfigChangeHandler) (w : World) (filepath : string) : M unit :=
  try_except (check_config_drift_body self w filepath)
             (λ e, logger ERROR (CheckFailed filepath e)).

Definition on_modified
    (self : ConfigChangeHandler) (w : World) (event : Event) : M unit :=
  if is_directory event then ret tt
  else
    let filepath := src_path event in
    if bool_decide (is_Some (config_files self !! filepath))
    then check_config_drift self w filepath
    else ret tt.

(** The observer calls [on_modified] once for every notification, each in
    the world of its moment; an exception leaving [on_modified] would end
    the delivery. *)
Fixpoint dispatch (self : ConfigChangeHandler) (batch : list (World * Event))
  : M unit :=
  match batch with
  | [] => ret tt
  | (w, event) :: rest => do! on_modified self w event in dispatch self rest
  end.

(** ** Start-up: [validate_input] and [main] *)

Record Args := mkArgs {
  args_config_files : list string;
  args_config_names : list string;
  args_baseline_dir : string;
  args_interval : Z;
  args_version_control : bool;
  args_debug : bool
}.

(** The loop of lines 150 to 152: the first tracked path that is not a
    file raises. *)
Fixpoint validate_files (fs : gmap string Node) (files : list string)
  : ValueError + unit :=
  match files with
  | [] => inr tt
  | config_file :: rest =>
      if negb (isfile fs config_file) then inl (ConfigFileMissing config_file)
      else validate_files fs rest
  end.

Definition validate_input (fs : gmap string Node) (args : Args)
  : ValueError + unit :=
  if negb (length (args_config_files args) =? length (args_config_names args))%nat
  then inl CountMismatch
  else if negb (isdir fs (args_baseline_dir args))
  then inl (BaselineDirMissing (args_baseline_dir args))
  else validate_files fs (args_config_files args).

(** [dict(pairs)]: a later pair with the same key replaces the earlier. *)
Definition dict (pairs : list (string * string)) : gmap string string :=
  foldl (λ d kv, <[kv.1 := kv.2]> d) ∅ pairs.

(** The loop of lines 178 to 183: the parent directory of every tracked
    file is scheduled once. *)
Fixpoint watch (cwd : string) (watched_directories : gset string)
    (files : list string) : list Effect :=
  match files with
  | [] => []
  | config_file :: rest =>
      let directory := posixpath.dirname (posixpath.abspath cwd config_file) in
      if negb (bool_decide (directory ∈ watched_directories))
      then Schedule directory :: Log INFO (WatchingDirectory directory)
             :: watch cwd ({[directory]} ∪ watched_directories) rest
      else watch cwd watched_directories rest
  end.

(** [time.sleep(secs)] for an [int]: CPython keeps the length as a signed
    64-bit count of nanoseconds.  A length that does not fit raises
    [OverflowError], a negative one [ValueError]; any other returns when
    the time has passed. *)
Module time.

Definition max_seconds : Z := 9223372036.

Inductive SleepError := SleepValueError | SleepOverflowError.

Definition sleep (secs : Z) : SleepError + unit :=
  if ((secs <? - max_seconds) || (max_seconds <? secs))%Z
  then inl SleepOverflowError
  else if (secs <? 0)%Z then inl SleepValueError
  else inr tt.

End time.

(** Lines 160 and 161: [--debug] sets the level of the root logger. *)
Definition configure_logging (args : Args) : list Effect :=
  if args_debug args then [SetLevel DEBUG] else [].

(** [main], from the parsed arguments on.  [startup] is the filesystem
    when the program starts and [cwd] its working directory.  [run] is what
    happens until the user interrupts the program: one batch of
    notifications for each [time.sleep(args.interval)] of the main loop,
    delivered by the observer during that sleep.  When [time.sleep] raises
    for the interval, it does so at the first turn of the loop: the
    exception is not a [KeyboardInterrupt], so only the [finally] clause
    runs and the exception ends the program.  The result is what the
    program did and its exit status: 1 after [sys.exit(1)] or an uncaught
    exception, 0 when [main] returns. *)
Definition main (cwd : string) (startup : gmap string Node) (args : Args)
    (run : list (list (World * Event))) : list Effect * Z :=
  match validate_input startup args with
  | inl e =>
      (configure_logging args ++ [Log ERROR (InputValidationError e)], 1%Z)
  | inr _ =>
      let config_files_dict :=
        dict (zip (args_config_files args) (args_config_names args)) in
      let event_handler :=
        mkHandler config_files_dict (args_baseline_dir args)
                  (args_version_control args) in
      let started :=
        configure_logging args
        ++ watch cwd ∅ (args_config_files args)
        ++ [ObserverStart; Log INFO MonitorStarted] in
      match time.sleep (args_interval args) with
      | inl _ => (started ++ [ObserverStop; ObserverJoin], 1%Z)
      | inr _ =>
          (started
           ++ flat_map (λ batch, Sleep (args_interval args)
                                   :: trace (dispatch event_handler batch)) run
           ++ [Log INFO MonitorStopped; ObserverStop; ObserverJoin], 0%Z)
      end
  end.

(** ** The states of the specification *)

Inductive ErrorReason := BaselineMissing | ParseFailure.

Inductive DriftState :=
| InSync
| Drifted (diff : string)
| Error (reason : ErrorReason).

(** The program keeps no state variable for a tracked config: the state a
    check leaves it in is the record the check logs.  This reads the state
    of the specification (section 3) off that record. *)
Definition state_of (m : Message) : option DriftState :=
  match m with
  | NoDrift _ => Some InSync
  | DriftDetected _ _ diff => Some (Drifted diff)
  | BaselineNotFound _ => Some (Error BaselineMissing)
  | CheckFailed _ _ => Some (Error ParseFailure)
  | _ => None
  end.

(** The checks a trace holds: every check of a tracked path starts by
    asking whether its baseline exists, and nothing else asks. *)
Definition checks (t : list Effect) : nat :=
  length (omap (λ f, match f with Exists p => Some p | _ => None end) t).

(** ** Induction on documents *)

Section ValueInduction.

Variable P : Value → Prop.
Hypothesis HScal : ∀ s, P (Scal s).
Hypothesis HSeq : ∀ xs, Forall P xs → P (Seq xs).
Hypothesis HMap : ∀ es, Forall (λ e, P e.2) es → P (Map es).

Fixpoint Value_nested_ind (v : Value) : P v :=
  match v with
  | Scal s => HScal s
  | Seq xs =>
      HSeq xs ((fix items (l : list Value) : Forall P l :=
                  match l with
                  | [] => @List.Forall_nil _ P
                  | x :: l' => @List.Forall_cons _ P x l' (Value_nested_ind x) (items l')
                  end) xs)
  | Map es =>
      HMap es ((fix entries (l : list (string * Value))
                  : Forall (λ e, P e.2) l :=
                  match l with
                  | [] => @List.Forall_nil _ _
                  | e :: l' =>
                      @List.Forall_cons _ (λ e, P e.2) e l'
                                        (Value_nested_ind e.2) (entries l')
                  end) es)
  end.

End ValueInduction.

(** The baseline of the config called [config_name]:
    [<baseline_dir>/<config_name>.yaml] (line 65). *)
Definition baseline_path_of (self : ConfigChangeHandler) (config_name : string)
  : string :=
  posixpath.join (baseline_dir self) (config_name +:+ ".yaml").

(** The notifications the handler acts on (lines 50 to 53). *)
Definition qualifies (self : ConfigChangeHandler) (n : World * Event) : bool :=
  negb (is_directory n.2)
  && bool_decide (is_Some (config_files self !! src_path n.2)).

(** The handler [main] builds (lines 169 to 173). *)
Definition event_handler_of (args : Args) : ConfigChangeHandler :=
  mkHandler (dict (zip (args_config_files args) (args_config_names args)))
            (args_baseline_dir args) (args_version_control args).

(** The same arguments with another [--interval]. *)
Definition with_interval (i : Z) (args : Args) : Args :=
  mkArgs (args_config_files args) (args_config_names args)
         (args_baseline_dir args) i (args_version_control args)
         (args_debug args).

(** The severity the specification gives to the report of each state
    (section 4.4). *)
Definition severity (st : DriftState) : Level :=
  match st with
  | InSync => INFO
  | Drifted _ => WARNING
  | Error _ => ERROR
  end.

(** ** What a trace holds *)

(** The files a trace opens, in order. *)
Definition opened (t : list Effect) : list string :=
  omap (λ f, match f with LoadYaml p => Some p | _ => None end) t.

(** The directories a trace hands to the observer, in order. *)
Definition scheduled (t : list Effect) : list string :=
  omap (λ f, match f with Schedule d => Some d | _ => None end) t.

(** The directory [main] watches for a tracked file (line 179). *)
Definition parent_directory (cwd config_file : string) : string :=
  posixpath.dirname (posixpath.abspath cwd config_file).

(** The same arguments with another [--version-control] flag. *)
Definition with_version_control (vc : bool) (args : Args) : Args :=
  mkArgs (args_config_files args) (args_config_names args)
         (args_baseline_dir args) (args_interval args) vc (args_debug args).

(** ** The example of the program's closing comment

    [python main.py -c app.conf settings.yaml -n app_config settings
    -b baseline -i 1], started in [/srv]. *)

Module Scenario.

Definition setting1 (value : string) : Value :=
  Map [("setting1", Scal (SStr value))].

Definition db_host : Value := Map [("db_host", Scal (SStr "localhost"))].

Definition show_kind (k : DiffKind) : string :=
  match k with
  | Added => "added"
  | Removed => "removed"
  | Changed => "changed"
  | TypeChanged => "type changed"
  end.

(** A rendering of a diff that always succeeds: the kinds of its entries. *)
Definition show (d : list DiffEntry) : Exn + string :=
  inr (foldr (λ e acc, show_kind (kind e) +:+ ";" +:+ acc) "" d).

(** A rendering that always fails. *)
Definition show_fails (d : list DiffEntry) : Exn + string :=
  inl (RuntimeError "cannot render").

Definition args : Args :=
  mkArgs ["app.conf"; "settings.yaml"] ["app_config"; "settings"] "baseline"
         1 false false.

(** The same command with the tracked files given by their absolute
    paths, the spelling in which the observer reports them. *)
Definition args_abs : Args :=
  mkArgs ["/srv/app.conf"; "/srv/settings.yaml"] ["app_config"; "settings"]
         "baseline" 1 false false.

Definition handler : ConfigChangeHandler :=
  mkHandler (dict (zip (args_config_files args_abs) (args_config_names args_abs)))
            "baseline" false.

Definition doc (v : Value) : Node := File (inr v).

(** The files of the example, with [baseline] as the baseline of
    [app_config] and [current] as [app.conf]. *)
Definition files (baseline current : Node) : gmap string Node :=
  <["baseline" := Directory]>
  (<["baseline/app_config.yaml" := baseline]>
  (<["baseline/settings.yaml" := doc db_host]>
  (<["app.conf" := current]>
  (<["/srv/app.conf" := current]>
  (<["settings.yaml" := doc db_host]>
  (<["/srv/settings.yaml" := doc db_host]> ∅)))))).

Definition world (baseline current : Node) : World :=
  mkWorld (files baseline current) show.

(** The example as the closing comment sets it up: [app.conf] matches its
    baseline. *)
Definition startup : gmap string Node :=
  files (doc (setting1 "value1")) (doc (setting1 "value1")).

(** The example without the baseline of [app_config]. *)
Definition world_without_baseline : World :=
  mkWorld (delete "baseline/app_config.yaml" startup) show.

Definition modified (p : string) : Event := mkEvent false p.

End Scenario.

(** * Properties *)

(** ** The paths and the scenarios of the specification *)

Example join_baseline :
  posixpath.join "baseline" ("app_config" +:+ ".yaml") = "baseline/app_config.yaml".
Proof. reflexivity. Qed.

Example join_absolute_name : posixpath.join "baseline" "/etc/x.yaml" = "/etc/x.yaml".
Proof. reflexivity. Qed.

Example dirname_of_file : posixpath.dirname "/srv/app/app.conf" = "/srv/app".
Proof. reflexivity. Qed.

Example dirname_at_root : posixpath.dirname "/app.conf" = "/".
Proof. reflexivity. Qed.

Example abspath_of_relative :
  posixpath.abspath "/srv/app" "./conf/../app.conf" = "/srv/app/app.conf".
Proof. reflexivity. Qed.

(** Scenario 1: the file matches its baseline. *)
Example scenario_in_sync :
  check_config_drift Scenario.handler
    (Scenario.world (Scenario.doc (Scenario.setting1 "value1"))
                    (Scenario.doc (Scenario.setting1 "value1")))
    "/srv/app.conf"
  = ([Exists "baseline/app_config.yaml"; LoadYaml "/srv/app.conf";
      LoadYaml "baseline/app_config.yaml"; Log INFO (NoDrift "app_config")],
     inr tt).
Proof. reflexivity. Qed.

(** Scenario 2: one value changed. *)
Example scenario_changed :
  DeepDiff (Scenario.setting1 "value1") (Scenario.setting1 "value2")
  = [mkEntry [Key "setting1"] Changed (Some (Scal (SStr "value1")))
             (Some (Scal (SStr "value2")))].
Proof. reflexivity. Qed.

(** Scenario 3: one key added. *)
Example scenario_added :
  DeepDiff Scenario.db_host
           (Map [("db_host", Scal (SStr "localhost")); ("db_port", Scal (SInt 5432))])
  = [mkEntry [Key "db_port"] Added None (Some (Scal (SInt 5432)))].
Proof. reflexivity. Qed.

(** A whole run: the program is started on the files of the example, one
    notification arrives for [app.conf] after it was emptied, and the user
    interrupts. *)
Example scenario_run :
  main "/srv" Scenario.startup Scenario.args_abs
       [[(Scenario.world (Scenario.doc (Scenario.setting1 "value1")) empty_file,
          Scenario.modified "/srv/app.conf")]]
  = ([Schedule "/srv"; Log INFO (WatchingDirectory "/srv"); ObserverStart;
      Log INFO MonitorStarted; Sleep 1;
      Exists "baseline/app_config.yaml"; LoadYaml "/srv/app.conf";
      LoadYaml "baseline/app_config.yaml";
      Log WARNING (DriftDetected "app_config" "/srv/app.conf" "type changed;");
      Log INFO MonitorStopped; ObserverStop; ObserverJoin], 0%Z).
Proof. reflexivity. Qed.

(** ** Dicts as entry lists *)

Lemma distinct_NoDup ks : distinct ks = true ↔ NoDup ks.
Proof.
  induction ks as [|k ks IH]; simpl.
  - split; [constructor | done].
  - rewrite andb_true_iff, negb_true_iff, bool_decide_eq_false, IH.
    rewrite NoDup_cons. done.
Qed.

Lemma dict_get_None {A} k (d : list (string * A)) :
  dict_get k d = None ↔ k ∉ d.*1.
Proof.
  induction d as [|[k' v] d IH]; simpl.
  - split; [intros _; apply not_elem_of_nil | done].
  - rewrite not_elem_of_cons. destruct (decide (k = k')) as [->|Hne].
    + split; [done | by intros [? _]].
    + rewrite IH. split; [auto | by intros [_ ?]].
Qed.

Lemma dict_get_entry {A} k v (d : list (string * A)) :
  NoDup d.*1 → (k, v) ∈ d → dict_get k d = Some v.
Proof.
  induction d as [|[k' v'] d IH]; simpl; intros Hnd Hin.
  - by apply elem_of_nil in Hin.
  - apply NoDup_cons in Hnd as [Hk Hnd].
    apply elem_of_cons in Hin as [Heq|Hin].
    + inversion Heq; subst. by rewrite decide_True.
    + destruct (decide (k = k')) as [->|]; [|by apply IH].
      exfalso. apply Hk. apply list_elem_of_fmap. by exists (k', v).
Qed.

Lemma dict_has_entry {A} k v (d : list (string * A)) :
  (k, v) ∈ d → dict_has k d = true.
Proof.
  intros Hin. unfold dict_has.
  destruct (dict_get k d) eqn:E; [done|].
  apply dict_get_None in E. exfalso. apply E.
  apply list_elem_of_fmap. by exists (k, v).
Qed.

(** ** When the rules of the comparison report nothing *)

Section ItemRules.

Variable cmp : Value → Value → list DiffEntry.

Lemma found_spec y xs : found cmp y xs = true ↔ ∃ x, x ∈ xs ∧ same cmp x y = true.
Proof.
  induction xs as [|x xs IH]; simpl.
  - split; [done | intros (x & Hx & _); by apply elem_of_nil in Hx].
  - rewrite orb_true_iff, IH. split.
    + intros [H | (x' & Hx' & H)]; [exists x | exists x']; split; auto;
        [apply list_elem_of_here | by apply list_elem_of_further].
    + intros (x' & Hx' & H). apply elem_of_cons in Hx' as [->|Hx']; eauto.
Qed.

Lemma exists_same_spec x ys :
  existsb (same cmp x) ys = true ↔ ∃ y, y ∈ ys ∧ same cmp x y = true.
Proof.
  rewrite existsb_exists. split; intros (y & Hy & H); exists y; split; auto;
    by apply list_elem_of_In.
Qed.

Lemma removed_items_nil ys i xs :
  removed_items cmp ys i xs = [] ↔ ∀ x, x ∈ xs → existsb (same cmp x) ys = true.
Proof.
  revert i. induction xs as [|x xs IH]; intros i; simpl.
  - split; [intros _ x Hx; by apply elem_of_nil in Hx | done].
  - split.
    + intros H. apply app_eq_nil in H as [H1 H2].
      intros x' Hx'. apply elem_of_cons in Hx' as [->|Hx'].
      * by destruct (existsb (same cmp x) ys).
      * by apply (IH (S i)).
    + intros H. rewrite (H x (list_elem_of_here _ _)). simpl.
      apply IH. intros x' Hx'. apply H. by apply list_elem_of_further.
Qed.

Lemma added_items_nil xs j ys :
  added_items cmp xs j ys = [] ↔ ∀ y, y ∈ ys → found cmp y xs = true.
Proof.
  revert j. induction ys as [|y ys IH]; intros j; simpl.
  - split; [intros _ y Hy; by apply elem_of_nil in Hy | done].
  - split.
    + intros H. apply app_eq_nil in H as [H1 H2].
      intros y' Hy'. apply elem_of_cons in Hy' as [->|Hy'].
      * by destruct (found cmp y xs).
      * by apply (IH (S j)).
    + intros H. rewrite (H y (list_elem_of_here _ _)). simpl.
      apply IH. intros y' Hy'. apply H. by apply list_elem_of_further.
Qed.

Lemma baseline_keys_nil fs es :
  baseline_keys cmp fs es = [] ↔
  ∀ k v, (k, v) ∈ es → ∃ w, dict_get k fs = Some w ∧ cmp v w = [].
Proof.
  induction es as [|[k v] es IH]; simpl.
  - split; [intros _ k v H; by apply elem_of_nil in H | done].
  - split.
    + intros H. apply app_eq_nil in H as [H1 H2].
      intros k' v' Hin. apply elem_of_cons in Hin as [Heq|Hin].
      * inversion Heq; subst. destruct (dict_get k fs) as [w|]; [|done].
        exists w. split; [done|]. by apply fmap_nil_inv in H1.
      * by apply IH.
    + intros H. destruct (H k v (list_elem_of_here _ _)) as (w & -> & ->).
      simpl. apply IH. intros k' v' Hin. apply H. by apply list_elem_of_further.
Qed.

End ItemRules.

Lemma added_keys_nil es fs :
  added_keys es fs = [] ↔ ∀ e, e ∈ fs → dict_has e.1 es = true.
Proof.
  unfold added_keys. induction fs as [|e fs IH]; simpl.
  - split; [intros _ e H; by apply elem_of_nil in H | done].
  - split.
    + intros H. apply app_eq_nil in H as [H1 H2].
      intros e' Hin. apply elem_of_cons in Hin as [->|Hin].
      * by destruct (dict_has e.1 es).
      * by apply IH.
    + intros H. rewrite (H e (list_elem_of_here _ _)). simpl.
      apply IH. intros e' Hin. apply H. by apply list_elem_of_further.
Qed.

Lemma DeepDiff_Seq xs ys :
  DeepDiff (Seq xs) (Seq ys)
  = removed_items DeepDiff ys 0 xs ++ added_items DeepDiff xs 0 ys.
Proof. reflexivity. Qed.

Lemma DeepDiff_Map es fs :
  DeepDiff (Map es) (Map fs) = baseline_keys DeepDiff fs es ++ added_keys es fs.
Proof. reflexivity. Qed.

(** Values of different kinds give one [TypeChanged] entry at the root. *)
Lemma DeepDiff_kinds_differ t1 t2 :
  kind_of t1 ≠ kind_of t2 →
  DeepDiff t1 t2 = [mkEntry [] TypeChanged (Some t1) (Some t2)].
Proof.
  destruct t1 as [a| |], t2 as [b| |]; cbn; intros Hk; try done.
  rewrite decide_False by congruence. by rewrite decide_False.
Qed.

Lemma well_formed_Seq xs :
  well_formed (Seq xs) = true ↔ ∀ x, x ∈ xs → well_formed x = true.
Proof.
  simpl. rewrite forallb_forall. split; intros H x Hx; apply H;
    by apply list_elem_of_In.
Qed.

Lemma well_formed_Map es :
  well_formed (Map es) = true ↔
  NoDup es.*1 ∧ ∀ e, e ∈ es → well_formed e.2 = true.
Proof.
  simpl. rewrite andb_true_iff, distinct_NoDup, forallb_forall.
  split; intros [H1 H2]; (split; [done|]); intros e He; apply H2;
    by apply list_elem_of_In.
Qed.

(** A document compared with itself gives no entry. *)
Lemma DeepDiff_refl D : well_formed D = true → DeepDiff D D = [].
Proof.
  induction D as [s|xs IH|es IH] using Value_nested_ind; intros Hwf.
  - simpl. by rewrite decide_True.
  - rewrite Forall_forall in IH. rewrite well_formed_Seq in Hwf.
    rewrite DeepDiff_Seq. apply app_nil. split.
    + apply removed_items_nil. intros x Hx. apply exists_same_spec.
      exists x. split; [done|]. unfold same. by rewrite IH; auto.
    + apply added_items_nil. intros y Hy. apply found_spec.
      exists y. split; [done|]. unfold same. by rewrite IH; auto.
  - rewrite Forall_forall in IH. apply well_formed_Map in Hwf as [Hnd Hwf].
    rewrite DeepDiff_Map. apply app_nil. split.
    + apply baseline_keys_nil. intros k v Hin. exists v. split.
      * by apply dict_get_entry.
      * apply (IH (k, v)); [done|]. by apply (Hwf (k, v)).
    + apply added_keys_nil. intros [k w] Hin. by apply dict_has_entry with w.
Qed.

(** ** One check, branch by branch *)

Lemma check_config_drift_tracked self w filepath name :
  config_files self !! filepath = Some name →
  check_config_drift self w filepath =
    let bp := baseline_path_of self name in
    if path_exists (fs w) bp then
      match read (fs w) filepath with
      | inl e =>
          ([Exists bp; LoadYaml filepath; Log ERROR (CheckFailed filepath e)], inr tt)
      | inr current =>
          match read (fs w) bp with
          | inl e =>
              ([Exists bp; LoadYaml filepath; LoadYaml bp;
                Log ERROR (CheckFailed filepath e)], inr tt)
          | inr baseline =>
              if is_empty (DeepDiff baseline current)
              then ([Exists bp; LoadYaml filepath; LoadYaml bp;
                     Log INFO (NoDrift name)], inr tt)
              else match str_diff w (DeepDiff baseline current) with
                   | inl e =>
                       ([Exists bp; LoadYaml filepath; LoadYaml bp;
                         Log ERROR (CheckFailed filepath e)], inr tt)
                   | inr text =>
                       ([Exists bp; LoadYaml filepath; LoadYaml bp;
                         Log WARNING (DriftDetected name filepath text)], inr tt)
                   end
          end
      end
    else ([Exists bp; Log ERROR (BaselineNotFound bp)], inr tt).
Proof.
  intros Hname. unfold check_config_drift, check_config_drift_body, getitem.
  rewrite Hname. unfold baseline_path_of. cbn.
  destruct (path_exists (fs w) _); cbn; [|done].
  destruct (read (fs w) filepath) as [e|current]; cbn; [done|].
  destruct (read (fs w) _) as [e|baseline]; cbn; [done|].
  destruct (is_empty (DeepDiff baseline current)); cbn; [done|].
  by destruct (str_diff w _).
Qed.

Lemma check_config_drift_untracked self w filepath :
  config_files self !! filepath = None →
  check_config_drift self w filepath
  = ([Log ERROR (CheckFailed filepath (KeyError filepath))], inr tt).
Proof.
  intros Hname. unfold check_config_drift, check_config_drift_body, getitem.
  by rewrite Hname.
Qed.

(** No exception leaves a check. *)
Lemma check_config_drift_returns self w filepath :
  outcome (check_config_drift self w filepath) = inr tt.
Proof.
  destruct (config_files self !! filepath) as [name|] eqn:Hname.
  - rewrite (check_config_drift_tracked _ _ _ _ Hname). cbn.
    repeat (case_match; try done).
  - by rewrite check_config_drift_untracked.
Qed.


(** A check of a tracked path asks once whether the baseline exists. *)
Lemma check_config_drift_counted self w filepath :
  is_Some (config_files self !! filepath) →
  checks (trace (check_config_drift self w filepath)) = 1.
Proof.
  intros [name Hname]. rewrite (check_config_drift_tracked _ _ _ _ Hname). cbn.
  repeat (case_match; try done).
Qed.

Lemma qualifies_tracked self w event name :
  is_directory event = false →
  config_files self !! src_path event = Some name →
  qualifies self (w, event) = true.
Proof.
  intros Hd Hname. unfold qualifies. cbn. by rewrite Hd, Hname.
Qed.

Lemma on_modified_qualifies self w event :
  qualifies self (w, event) = true →
  on_modified self w event = check_config_drift self w (src_path event).
Proof.
  unfold qualifies, on_modified. cbn. intros [Hd Ht]%andb_true_iff.
  apply negb_true_iff in Hd. by rewrite Hd, Ht.
Qed.

Lemma on_modified_filtered self w event :
  qualifies self (w, event) = false → on_modified self w event = ([], inr tt).
Proof.
  unfold qualifies, on_modified. cbn. intros [Hd | Ht]%andb_false_iff.
  - apply negb_false_iff in Hd. by rewrite Hd.
  - rewrite Ht. by destruct (is_directory event).
Qed.

Lemma on_modified_returns self w event :
  outcome (on_modified self w event) = inr tt.
Proof.
  destruct (qualifies self (w, event)) eqn:Hq.
  - rewrite on_modified_qualifies by done. apply check_config_drift_returns.
  - by rewrite on_modified_filtered.
Qed.

(** ** The delivery of notifications *)

Lemma dispatch_cons self w event rest :
  dispatch self ((w, event) :: rest)
  = (trace (on_modified self w event) ++ trace (dispatch self rest),
     outcome (dispatch self rest)).
Proof.
  cbn [dispatch]. unfold bind.
  pose proof (on_modified_returns self w event) as Hr.
  destruct (on_modified self w event) as [t [e|[]]]; cbn in *; [done|].
  by destruct (dispatch self rest).
Qed.

Lemma dispatch_returns self batch : outcome (dispatch self batch) = inr tt.
Proof.
  induction batch as [|[w event] rest IH]; [done|]. by rewrite dispatch_cons.
Qed.

Lemma dispatch_trace self batch :
  trace (dispatch self batch)
  = flat_map (λ n, trace (on_modified self n.1 n.2)) batch.
Proof.
  induction batch as [|[w event] rest IH]; [done|].
  rewrite dispatch_cons. cbn. by rewrite <- IH.
Qed.



(** ** The comparison on lists and on one-key dicts *)

Lemma is_empty_true {A} (l : list A) : is_empty l = true ↔ l = [].
Proof. by destruct l. Qed.

Lemma DeepDiff_Seq_nil xs ys :
  DeepDiff (Seq xs) (Seq ys) = [] ↔
  (∀ x, x ∈ xs → ∃ y, y ∈ ys ∧ DeepDiff x y = [])
  ∧ (∀ y, y ∈ ys → ∃ x, x ∈ xs ∧ DeepDiff x y = []).
Proof.
  rewrite DeepDiff_Seq, app_nil, removed_items_nil, added_items_nil.
  split; intros [H1 H2]; split.
  - intros x Hx. apply H1, exists_same_spec in Hx as (y & Hy & Hs).
    exists y. split; [done|]. by apply is_empty_true.
  - intros y Hy. apply H2, found_spec in Hy as (x & Hx & Hs).
    exists x. split; [done|]. by apply is_empty_true.
  - intros x Hx. apply exists_same_spec. destruct (H1 x Hx) as (y & Hy & Hd).
    exists y. split; [done|]. by apply is_empty_true.
  - intros y Hy. apply found_spec. destruct (H2 y Hy) as (x & Hx & Hd).
    exists x. split; [done|]. by apply is_empty_true.
Qed.

Lemma DeepDiff_one_key k v w :
  DeepDiff (Map [(k, v)]) (Map [(k, w)]) = under (Key k) <$> DeepDiff v w.
Proof.
  rewrite DeepDiff_Map. unfold added_keys, dict_has. cbn.
  rewrite !decide_True by done. cbn. by rewrite !app_nil_r.
Qed.

Lemma DeepDiff_one_key_nil k v w :
  DeepDiff (Map [(k, v)]) (Map [(k, w)]) = [] ↔ DeepDiff v w = [].
Proof.
  rewrite DeepDiff_one_key. split; [apply fmap_nil_inv | by intros ->].
Qed.

Lemma read_exists fs p v : read fs p = inr v → path_exists fs p = true.
Proof.
  unfold read, path_exists. intros H. apply bool_decide_eq_true.
  by destruct (fs !! p).
Qed.

(** ** Reflexivity and the order of list items *)

(** C1.  A document compared with itself gives the empty diff, so a check
    of a file that parses to the same document as its baseline logs that
    there is no drift. *)
Theorem compare_reflexive D :
  well_formed D = true →
  DeepDiff D D = []
  ∧ ∀ self w filepath name,
      config_files self !! filepath = Some name →
      read (fs w) filepath = inr D →
      read (fs w) (baseline_path_of self name) = inr D →
      logs (trace (check_config_drift self w filepath)) = [(INFO, NoDrift name)].
Proof.
  intros Hwf. pose proof (DeepDiff_refl D Hwf) as Hrefl. split; [done|].
  intros self w filepath name Hname Hcur Hbase.
  rewrite (check_config_drift_tracked _ _ _ _ Hname). cbn zeta.
  by rewrite (read_exists _ _ _ Hbase), Hcur, Hbase, Hrefl.
Qed.

Lemma compare_reflexive_witness :
  DeepDiff (Scenario.setting1 "value1") (Scenario.setting1 "value1") = []
  ∧ logs (trace (check_config_drift Scenario.handler
                   (Scenario.world (Scenario.doc (Scenario.setting1 "value1"))
                                  (Scenario.doc (Scenario.setting1 "value1")))
                   "/srv/app.conf"))
    = [(INFO, NoDrift "app_config")].
Proof.
  destruct (compare_reflexive (Scenario.setting1 "value1") eq_refl) as [H1 H2].
  split; [exact H1|].
  apply H2; reflexivity.
Defined.

(** C2, as the program has it.  The items of two lists under the same key
    are compared as sets: the diff is empty when the lists are
    permutations of one another, and more generally when they have the
    same items, whatever the number of times each occurs; it is not empty
    when one list has an item that compares equal to no item of the
    other. *)
Theorem sequences_compared_as_sets k (S S' : list Value) :
  well_formed (Seq S) = true →
  (S ≡ₚ S' → DeepDiff (Map [(k, Seq S)]) (Map [(k, Seq S')]) = [])
  ∧ ((∀ x, x ∈ S ↔ x ∈ S') →
     DeepDiff (Map [(k, Seq S)]) (Map [(k, Seq S')]) = [])
  ∧ (∀ y, y ∈ S' → (∀ x, x ∈ S → DeepDiff x y ≠ []) →
     DeepDiff (Map [(k, Seq S)]) (Map [(k, Seq S')]) ≠ [])
  ∧ (∀ x, x ∈ S → (∀ y, y ∈ S' → DeepDiff x y ≠ []) →
     DeepDiff (Map [(k, Seq S)]) (Map [(k, Seq S')]) ≠ []).
Proof.
  intros Hwf. rewrite well_formed_Seq in Hwf.
  assert (Hset : (∀ x, x ∈ S ↔ x ∈ S') →
                 DeepDiff (Map [(k, Seq S)]) (Map [(k, Seq S')]) = []).
  { intros Hsame. apply DeepDiff_one_key_nil, DeepDiff_Seq_nil. split.
    - intros x Hx. exists x. split; [by apply Hsame|].
      by apply DeepDiff_refl, Hwf.
    - intros y Hy. exists y. split; [by apply Hsame|].
      by apply DeepDiff_refl, Hwf, Hsame. }
  split; [|split; [done|split]].
  - intros Hperm. apply Hset. intros x. by rewrite Hperm.
  - intros y Hy Hnone Hnil.
    apply DeepDiff_one_key_nil, DeepDiff_Seq_nil in Hnil as [_ Hadded].
    destruct (Hadded y Hy) as (x & Hx & Hd). by apply (Hnone x).
  - intros x Hx Hnone Hnil.
    apply DeepDiff_one_key_nil, DeepDiff_Seq_nil in Hnil as [Hremoved _].
    destruct (Hremoved x Hx) as (y & Hy & Hd). by apply (Hnone y).
Qed.

Lemma sequences_compared_as_sets_witness :
  DeepDiff (Map [("k", Seq [Scal (SInt 1); Scal (SInt 2)])])
           (Map [("k", Seq [Scal (SInt 2); Scal (SInt 1)])]) = [].
Proof.
  destruct (sequences_compared_as_sets "k" [Scal (SInt 1); Scal (SInt 2)]
              [Scal (SInt 2); Scal (SInt 1)] eq_refl) as [Hperm _].
  apply Hperm. apply Permutation_swap.
Defined.

(** C2 as the specification words it fails on a repeated item: the list
    [[1; 1]] against the baseline [[1]] is no drift. *)
Lemma duplicated_item_is_no_drift :
  DeepDiff (Map [("k", Seq [Scal (SInt 1)])])
           (Map [("k", Seq [Scal (SInt 1); Scal (SInt 1)])]) = []
  ∧ logs (trace (check_config_drift Scenario.handler
                   (Scenario.world
                      (Scenario.doc (Map [("k", Seq [Scal (SInt 1)])]))
                      (Scenario.doc (Map [("k", Seq [Scal (SInt 1); Scal (SInt 1)])])))
                   "/srv/app.conf"))
    = [(INFO, NoDrift "app_config")].
Proof. split; reflexivity. Qed.

(** ** Empty files *)

(** C3 as the specification words it fails: an empty [app.conf] against
    the baseline [{setting1: value1}] is reported as one change of type
    at the root, which is not what the empty dict gives (the key reported
    as removed). *)
Lemma empty_file_is_not_an_empty_dict :
  let baseline := Scenario.setting1 "value1" in
  read (fs (Scenario.world (Scenario.doc baseline) empty_file)) "/srv/app.conf"
  = inr (Scal SNull)
  ∧ DeepDiff baseline (Scal SNull)
    = [mkEntry [] TypeChanged (Some baseline) (Some (Scal SNull))]
  ∧ DeepDiff baseline (Map [])
    = [mkEntry [Key "setting1"] Removed (Some (Scal (SStr "value1"))) None]
  ∧ logs (trace (check_config_drift Scenario.handler
                   (Scenario.world (Scenario.doc baseline) empty_file)
                   "/srv/app.conf"))
    = [(WARNING, DriftDetected "app_config" "/srv/app.conf" "type changed;")].
Proof. repeat split; reflexivity. Qed.

(** C3, as the program has it.  An empty file, be it the tracked file or
    its baseline, loads with no error to the null document, and the check
    hands it to the comparison as it is, not as an empty dict.  Against a
    document of the other file that is not null, a dict among them, the
    diff is one change of type at the root, in either direction, and it
    is logged as drift; when both files are empty there is no drift.  No
    exception leaves the check. *)
Theorem empty_file_is_null_document self w filepath name :
  config_files self !! filepath = Some name →
  outcome (check_config_drift self w filepath) = inr tt
  ∧ (fs w !! filepath = Some empty_file →
     fs w !! baseline_path_of self name = Some empty_file →
     logs (trace (check_config_drift self w filepath)) = [(INFO, NoDrift name)])
  ∧ (∀ D text,
       fs w !! filepath = Some empty_file →
       read (fs w) (baseline_path_of self name) = inr D →
       kind_of D ≠ KNull →
       let diff := [mkEntry [] TypeChanged (Some D) (Some (Scal SNull))] in
       DeepDiff D (Scal SNull) = diff
       ∧ (str_diff w diff = inr text →
          logs (trace (check_config_drift self w filepath))
          = [(WARNING, DriftDetected name filepath text)]))
  ∧ (∀ D text,
       fs w !! baseline_path_of self name = Some empty_file →
       read (fs w) filepath = inr D →
       kind_of D ≠ KNull →
       let diff := [mkEntry [] TypeChanged (Some (Scal SNull)) (Some D)] in
       DeepDiff (Scal SNull) D = diff
       ∧ (str_diff w diff = inr text →
          logs (trace (check_config_drift self w filepath))
          = [(WARNING, DriftDetected name filepath text)])).
Proof.
  intros Hname.
  assert (Hnull : ∀ p, fs w !! p = Some empty_file → read (fs w) p = inr (Scal SNull)).
  { intros p Hp. unfold read. by rewrite Hp. }
  split; [apply check_config_drift_returns|]. split; [|split].
  - intros Hcur%Hnull Hbase%Hnull.
    rewrite (check_config_drift_tracked _ _ _ _ Hname). cbn zeta.
    by rewrite (read_exists _ _ _ Hbase), Hcur, Hbase.
  - intros D text Hcur%Hnull Hbase Hkind diff.
    assert (Hdiff : DeepDiff D (Scal SNull) = diff)
      by (by apply DeepDiff_kinds_differ).
    split; [done|]. intros Htext.
    rewrite (check_config_drift_tracked _ _ _ _ Hname). cbn zeta.
    rewrite (read_exists _ _ _ Hbase), Hcur, Hbase, Hdiff. cbn.
    by rewrite Htext.
  - intros D text Hbase%Hnull Hcur Hkind diff.
    assert (Hdiff : DeepDiff (Scal SNull) D = diff)
      by (apply DeepDiff_kinds_differ; cbn; congruence).
    split; [done|]. intros Htext.
    rewrite (check_config_drift_tracked _ _ _ _ Hname). cbn zeta.
    rewrite (read_exists _ _ _ Hbase), Hcur, Hbase, Hdiff. cbn.
    by rewrite Htext.
Qed.

Lemma empty_file_is_null_document_witness :
  logs (trace (check_config_drift Scenario.handler
                 (Scenario.world empty_file
                                 (Scenario.doc (Scenario.setting1 "value1")))
                 "/srv/app.conf"))
  = [(WARNING, DriftDetected "app_config" "/srv/app.conf" "type changed;")].
Proof.
  destruct (empty_file_is_null_document Scenario.handler
              (Scenario.world empty_file
                              (Scenario.doc (Scenario.setting1 "value1")))
              "/srv/app.conf" "app_config" eq_refl) as (_ & _ & _ & H).
  destruct (H (Scenario.setting1 "value1") "type changed;"
              eq_refl eq_refl) as [_ Hlog]; [discriminate|].
  apply Hlog. reflexivity.
Defined.

(** ** Failures of a check *)

(** C4.  A notification for a tracked file whose baseline does not exist
    makes the check log one record, at error level, naming the missing
    baseline: the state [Error BaselineMissing].  Nothing is loaded, no
    exception leaves the handler, and the notifications that follow are
    handled as usual; the check is not tried again before one of them
    asks for it. *)
Theorem missing_baseline_is_logged self w event name rest :
  is_directory event = false →
  config_files self !! src_path event = Some name →
  fs w !! baseline_path_of self name = None →
  let bp := baseline_path_of self name in
  on_modified self w event = ([Exists bp; Log ERROR (BaselineNotFound bp)], inr tt)
  ∧ state_of (BaselineNotFound bp) = Some (Error BaselineMissing)
  ∧ dispatch self ((w, event) :: rest)
    = ([Exists bp; Log ERROR (BaselineNotFound bp)] ++ trace (dispatch self rest),
       inr tt).
Proof.
  intros Hd Hname Hbase bp. subst bp.
  assert (Hon : on_modified self w event
                = ([Exists (baseline_path_of self name);
                    Log ERROR (BaselineNotFound (baseline_path_of self name))],
                   inr tt)).
  { rewrite on_modified_qualifies.
    - rewrite (check_config_drift_tracked _ _ _ _ Hname). cbn zeta.
      unfold path_exists. rewrite Hbase.
      by rewrite bool_decide_eq_false_2 by (by intros [? ?]).
    - by apply qualifies_tracked with name. }
  split; [done|]. split; [done|].
  by rewrite dispatch_cons, Hon, dispatch_returns.
Qed.

Lemma missing_baseline_is_logged_witness :
  on_modified Scenario.handler Scenario.world_without_baseline
              (Scenario.modified "/srv/app.conf")
  = ([Exists "baseline/app_config.yaml";
      Log ERROR (BaselineNotFound "baseline/app_config.yaml")], inr tt).
Proof.
  exact (proj1 (missing_baseline_is_logged Scenario.handler
                  Scenario.world_without_baseline
                  (Scenario.modified "/srv/app.conf") "app_config" []
                  eq_refl eq_refl eq_refl)).
Defined.

(** C5.  When the current file or the baseline cannot be read or parsed,
    the check logs one record, at error level, with the exception: the
    state [Error ParseFailure].  No exception leaves a check, whatever it
    is called on, nor the delivery of a batch, and the notifications that
    follow a failed check are each handled on their own. *)
Theorem check_failures_are_contained self w event name e rest :
  is_directory event = false →
  config_files self !! src_path event = Some name →
  path_exists (fs w) (baseline_path_of self name) = true →
  (read (fs w) (src_path event) = inl e
   ∨ (∃ current, read (fs w) (src_path event) = inr current)
     ∧ read (fs w) (baseline_path_of self name) = inl e) →
  logs (trace (on_modified self w event))
  = [(ERROR, CheckFailed (src_path event) e)]
  ∧ state_of (CheckFailed (src_path event) e) = Some (Error ParseFailure)
  ∧ outcome (on_modified self w event) = inr tt
  ∧ (∀ self' w' filepath, outcome (check_config_drift self' w' filepath) = inr tt)
  ∧ (∀ batch, outcome (dispatch self batch) = inr tt)
  ∧ dispatch self ((w, event) :: rest)
    = (trace (on_modified self w event)
       ++ flat_map (λ n, trace (on_modified self n.1 n.2)) rest, inr tt).
Proof.
  intros Hd Hname Hex Hfail.
  split; [|split; [done|split; [apply on_modified_returns|split;
    [intros; apply check_config_drift_returns|split;
      [intros; apply dispatch_returns|]]]]].
  - rewrite on_modified_qualifies.
    + rewrite (check_config_drift_tracked _ _ _ _ Hname). cbn zeta. rewrite Hex.
      destruct Hfail as [-> | [[current ->] ->]]; done.
    + by apply qualifies_tracked with name.
  - by rewrite dispatch_cons, dispatch_returns, dispatch_trace.
Qed.

Lemma check_failures_are_contained_witness :
  logs (trace (on_modified Scenario.handler
                 (Scenario.world (Scenario.doc (Scenario.setting1 "value1"))
                                (File (inl (YAMLError "mapping values are not allowed here"))))
                 (Scenario.modified "/srv/app.conf")))
  = [(ERROR, CheckFailed "/srv/app.conf"
               (YAMLError "mapping values are not allowed here"))].
Proof.
  refine (proj1 (check_failures_are_contained Scenario.handler
                   (Scenario.world (Scenario.doc (Scenario.setting1 "value1"))
                      (File (inl (YAMLError "mapping values are not allowed here"))))
                   (Scenario.modified "/srv/app.conf") "app_config"
                   (YAMLError "mapping values are not allowed here") []
                   eq_refl eq_refl eq_refl _)).
  left. reflexivity.
Defined.

(** ** Start-up *)











(** ** Which notifications are checked, and how often *)






(** C8.  A notification for a directory, or for a path that is not
    tracked, has no effect at all: nothing is asked of the filesystem,
    nothing is loaded and nothing is logged.  Any other notification runs
    the check of its path, once.  The handler holds no state that a
    notification could change. *)
Theorem events_are_filtered self w event :
  ((is_directory event = true ∨ config_files self !! src_path event = None) →
   on_modified self w event = ([], inr tt))
  ∧ (is_directory event = false →
     is_Some (config_files self !! src_path event) →
     on_modified self w event = check_config_drift self w (src_path event)
     ∧ checks (trace (on_modified self w event)) = 1)
  ∧ (trace (on_modified self w event) ≠ [] →
     is_directory event = false ∧ is_Some (config_files self !! src_path event)).
Proof.
  assert (Hfiltered :
    is_directory event = true ∨ config_files self !! src_path event = None →
    on_modified self w event = ([], inr tt)).
  { intros Hf. apply on_modified_filtered. unfold qualifies. cbn.
    destruct Hf as [-> | ->]; [done|]. cbn. apply andb_false_r. }
  split; [done|]. split.
  - intros Hd [name Hname].
    rewrite on_modified_qualifies by (by apply qualifies_tracked with name).
    split; [done|]. apply check_config_drift_counted. by exists name.
  - intros Htrace. destruct (is_directory event) eqn:Hd.
    + rewrite Hfiltered in Htrace by auto. done.
    + destruct (config_files self !! src_path event) eqn:Hname; [by eauto|].
      rewrite Hfiltered in Htrace by auto. done.
Qed.

Lemma events_are_filtered_witness :
  on_modified Scenario.handler Scenario.world_without_baseline
              (Scenario.modified "/srv/notes.txt")
  = ([], inr tt).
Proof.
  apply (events_are_filtered Scenario.handler Scenario.world_without_baseline
           (Scenario.modified "/srv/notes.txt")).
  right. reflexivity.
Defined.

(** ** What a check logs *)

(** C9 as the specification words it fails: when rendering the diff
    raises, the drift of [app.conf] is logged as a failed check, at error
    level, and no record carries the diff. *)
Lemma failed_rendering_loses_the_diff :
  let w := mkWorld (Scenario.files (Scenario.doc (Scenario.setting1 "value1"))
                                  (Scenario.doc (Scenario.setting1 "value2")))
                   Scenario.show_fails in
  DeepDiff (Scenario.setting1 "value1") (Scenario.setting1 "value2") ≠ []
  ∧ logs (trace (check_config_drift Scenario.handler w "/srv/app.conf"))
    = [(ERROR, CheckFailed "/srv/app.conf" (RuntimeError "cannot render"))]
  ∧ ¬ ∃ lvl name filepath text,
        (lvl, DriftDetected name filepath text)
        ∈ logs (trace (check_config_drift Scenario.handler w "/srv/app.conf")).
Proof.
  split; [done|]. split; [reflexivity|].
  intros (lvl & name & filepath & text & Hin).
  vm_compute in Hin. apply list_elem_of_singleton in Hin. discriminate.
Qed.

(** C9, as the program has it.  A check of a tracked file never raises and
    logs one record, whose level is the severity of the state it stands
    for: info when the two documents compare equal, warning with the
    rendered diff when they do not, error otherwise.  When rendering the
    diff raises, the record is the error record of a failed check, with
    the exception in place of the diff. *)
Theorem severity_of_a_check self w filepath name :
  config_files self !! filepath = Some name →
  outcome (check_config_drift self w filepath) = inr tt
  ∧ (∃ lvl m st,
       logs (trace (check_config_drift self w filepath)) = [(lvl, m)]
       ∧ state_of m = Some st ∧ lvl = severity st)
  ∧ (∀ baseline current,
       read (fs w) filepath = inr current →
       read (fs w) (baseline_path_of self name) = inr baseline →
       (DeepDiff baseline current = [] →
        logs (trace (check_config_drift self w filepath)) = [(INFO, NoDrift name)])
       ∧ (∀ text,
            DeepDiff baseline current ≠ [] →
            str_diff w (DeepDiff baseline current) = inr text →
            logs (trace (check_config_drift self w filepath))
            = [(WARNING, DriftDetected name filepath text)])
       ∧ (∀ e,
            DeepDiff baseline current ≠ [] →
            str_diff w (DeepDiff baseline current) = inl e →
            logs (trace (check_config_drift self w filepath))
            = [(ERROR, CheckFailed filepath e)])).
Proof.
  intros Hname. split; [apply check_config_drift_returns|]. split.
  - rewrite (check_config_drift_tracked _ _ _ _ Hname). cbn zeta.
    repeat case_match; cbn; eexists _, _, _; (split; [reflexivity|]); done.
  - intros baseline current Hcur Hbase.
    rewrite (check_config_drift_tracked _ _ _ _ Hname). cbn zeta.
    rewrite (read_exists _ _ _ Hbase), Hcur, Hbase.
    split; [by intros ->|]. split.
    + intros text Hdiff ->. by destruct (DeepDiff baseline current).
    + intros e Hdiff ->. by destruct (DeepDiff baseline current).
Qed.

Lemma severity_of_a_check_witness :
  logs (trace (check_config_drift Scenario.handler
                 (Scenario.world (Scenario.doc (Scenario.setting1 "value1"))
                                (Scenario.doc (Scenario.setting1 "value2")))
                 "/srv/app.conf"))
  = [(WARNING, DriftDetected "app_config" "/srv/app.conf" "changed;")].
Proof.
  destruct (severity_of_a_check Scenario.handler
              (Scenario.world (Scenario.doc (Scenario.setting1 "value1"))
                             (Scenario.doc (Scenario.setting1 "value2")))
              "/srv/app.conf" "app_config" eq_refl) as (_ & _ & H).
  destruct (H (Scenario.setting1 "value1") (Scenario.setting1 "value2")
              eq_refl eq_refl) as (_ & Hwarn & _).
  apply Hwarn; [discriminate | reflexivity].
Defined.

(** ** How an event is matched to a tracked file *)

Lemma foldl_insert_is_Some (pairs : list (string * string)) (d : gmap string string) k :
  is_Some (foldl (λ d kv, <[kv.1 := kv.2]> d) d pairs !! k)
  ↔ is_Some (d !! k) ∨ k ∈ pairs.*1.
Proof.
  revert d. induction pairs as [|[k' v] pairs IH]; intros d; cbn.
  - rewrite elem_of_nil. tauto.
  - rewrite IH, elem_of_cons, lookup_insert_is_Some.
    destruct (decide (k' = k)) as [->|]; [tauto|]. split.
    + intros [[?|[_ ?]]|?]; [done|auto..].
    + intros [?|[?|?]]; [auto|congruence|auto].
Qed.

Lemma dict_is_Some pairs k : is_Some (dict pairs !! k) ↔ k ∈ pairs.*1.
Proof.
  unfold dict. rewrite foldl_insert_is_Some, lookup_empty.
  split; [intros [[? ?]|?]; done | auto].
Qed.

Lemma tracked_iff args p :
  length (args_config_files args) = length (args_config_names args) →
  is_Some (config_files (event_handler_of args) !! p) ↔ p ∈ args_config_files args.
Proof.
  intros Hlen. cbn. rewrite dict_is_Some, fst_zip by lia. done.
Qed.

Lemma watch_schedules cwd watched files f :
  f ∈ files →
  posixpath.dirname (posixpath.abspath cwd f) ∈ watched
  ∨ Schedule (posixpath.dirname (posixpath.abspath cwd f)) ∈ watch cwd watched files.
Proof.
  revert watched. induction files as [|g files IH]; intros watched Hin.
  - by apply elem_of_nil in Hin.
  - cbn [watch].
    destruct (decide (posixpath.dirname (posixpath.abspath cwd g) ∈ watched))
      as [Hg|Hg].
    + rewrite bool_decide_eq_true_2 by done. cbn.
      apply elem_of_cons in Hin as [->|Hin]; [by left | by apply IH].
    + rewrite bool_decide_eq_false_2 by done. cbn.
      apply elem_of_cons in Hin as [->|Hin]; [right; apply list_elem_of_here|].
      destruct (IH ({[posixpath.dirname (posixpath.abspath cwd g)]} ∪ watched) Hin)
        as [Hw|Hs].
      * apply elem_of_union in Hw as [Hw|Hw]; [|by left].
        apply elem_of_singleton in Hw. rewrite Hw. right. apply list_elem_of_here.
      * right. by do 2 apply list_elem_of_further.
Qed.

(** C10 as the specification words it fails: a notification for a
    directory is not checked, though its path is, character for
    character, one of the tracked paths. *)
Lemma directory_event_is_not_checked :
  "/srv/app.conf" ∈ args_config_files Scenario.args_abs
  ∧ on_modified (event_handler_of Scenario.args_abs)
                (Scenario.world (Scenario.doc (Scenario.setting1 "value1")) Directory)
                (mkEvent true "/srv/app.conf")
    = ([], inr tt)
  ∧ checks (trace (on_modified (event_handler_of Scenario.args_abs)
                     (Scenario.world (Scenario.doc (Scenario.setting1 "value1")) Directory)
                     (mkEvent true "/srv/app.conf"))) = 0.
Proof. split; [apply list_elem_of_here | split; reflexivity]. Qed.

(** C10, as the program has it.  A notification for a directory is never
    checked.  A notification for a file is checked exactly when its path
    is, as a string, one of the [--config-files] arguments.  The paths are
    not normalised for this, although the directory watched for a tracked
    file is that of its absolute path: a tracked file whose absolute path
    is not itself among the arguments is not checked when the
    notification carries that absolute path. *)
Theorem tracked_paths_match_as_strings cwd args w event :
  length (args_config_files args) = length (args_config_names args) →
  (is_directory event = true →
   on_modified (event_handler_of args) w event = ([], inr tt))
  ∧ (is_directory event = false →
     (src_path event ∈ args_config_files args →
      on_modified (event_handler_of args) w event
      = check_config_drift (event_handler_of args) w (src_path event)
      ∧ checks (trace (on_modified (event_handler_of args) w event)) = 1)
     ∧ (src_path event ∉ args_config_files args →
        on_modified (event_handler_of args) w event = ([], inr tt)))
  ∧ (∀ f, f ∈ args_config_files args →
       Schedule (posixpath.dirname (posixpath.abspath cwd f))
       ∈ watch cwd ∅ (args_config_files args)
       ∧ (posixpath.abspath cwd f ∉ args_config_files args →
          on_modified (event_handler_of args) w
                      (mkEvent false (posixpath.abspath cwd f))
          = ([], inr tt))).
Proof.
  intros Hlen.
  assert (Hmiss : ∀ ev, src_path ev ∉ args_config_files args →
                        on_modified (event_handler_of args) w ev = ([], inr tt)).
  { intros ev Hnot. apply on_modified_filtered. unfold qualifies.
    apply andb_false_iff. right. apply bool_decide_eq_false.
    by rewrite tracked_iff. }
  split; [|split].
  - intros Hd. apply on_modified_filtered. unfold qualifies. cbn [snd].
    by rewrite Hd.
  - intros Hd. split; [|apply Hmiss].
    intros Hin. apply (tracked_iff args _ Hlen) in Hin.
    destruct Hin as [name Hname].
    rewrite on_modified_qualifies by (by apply qualifies_tracked with name).
    split; [done|]. apply check_config_drift_counted. by exists name.
  - intros f Hin. split; [|intros Hnot; by apply Hmiss].
    destruct (watch_schedules cwd ∅ _ f Hin) as [Hw|Hs]; [|done].
    by apply elem_of_empty in Hw.
Qed.

Lemma tracked_paths_match_as_strings_witness :
  Schedule "/srv" ∈ watch "/srv" ∅ (args_config_files Scenario.args)
  ∧ on_modified (event_handler_of Scenario.args) Scenario.world_without_baseline
                (Scenario.modified "/srv/app.conf")
    = ([], inr tt).
Proof.
  destruct (tracked_paths_match_as_strings "/srv" Scenario.args
              Scenario.world_without_baseline (Scenario.modified "/srv/app.conf")
              eq_refl) as (_ & _ & H).
  destruct (H "app.conf" (list_elem_of_here _ _)) as [Hs Hno].
  split; [exact Hs|]. apply Hno.
  apply (bool_decide_unpack _). reflexivity.
Defined.

(** * Further properties of the program *)

(** ** [validate_input] *)

(** X1.  The loop over the tracked paths stops at the first one that is not a
    file: that path is the one the error names, whatever follows it. *)
Theorem validate_input_names_first_missing fs args ok f rest :
  length (args_config_files args) = length (args_config_names args) →
  isdir fs (args_baseline_dir args) = true →
  args_config_files args = ok ++ f :: rest →
  (∀ g, g ∈ ok → isfile fs g = true) →
  isfile fs f = false →
  validate_input fs args = inl (ConfigFileMissing f).
Proof.
  intros Hlen Hdir Hfiles Hok Hf. unfold validate_input.
  rewrite Hlen, Nat.eqb_refl, Hdir. cbn. rewrite Hfiles. clear Hfiles Hlen.
  induction ok as [|g ok IH]; cbn.
  - by rewrite Hf.
  - rewrite (Hok g) by apply list_elem_of_here. cbn.
    apply IH. intros g' Hg'. apply Hok. by apply list_elem_of_further.
Qed.

Lemma validate_input_names_first_missing_witness :
  validate_input Scenario.startup
    (mkArgs ["app.conf"; "gone.conf"; "lost.conf"] ["a"; "b"; "c"] "baseline"
            1 false false)
  = inl (ConfigFileMissing "gone.conf").
Proof.
  apply (validate_input_names_first_missing Scenario.startup _
           ["app.conf"] "gone.conf" ["lost.conf"]); try reflexivity.
  intros g Hg. apply list_elem_of_singleton in Hg. by subst.
Defined.


(** ** The watched directories *)

Lemma scheduled_watch_cons cwd watched f files :
  scheduled (watch cwd watched (f :: files))
  = if bool_decide (parent_directory cwd f ∈ watched)
    then scheduled (watch cwd watched files)
    else parent_directory cwd f
           :: scheduled (watch cwd ({[parent_directory cwd f]} ∪ watched) files).
Proof.
  cbn [watch]. fold (parent_directory cwd f).
  by destruct (bool_decide (parent_directory cwd f ∈ watched)).
Qed.

Lemma scheduled_watch_spec cwd watched files d :
  d ∈ scheduled (watch cwd watched files)
  ↔ ¬ (d ∈ watched) ∧ ∃ f, f ∈ files ∧ d = parent_directory cwd f.
Proof.
  revert watched. induction files as [|f files IH]; intros watched.
  - cbn. rewrite elem_of_nil. split; [done|].
    intros (_ & f & Hf & _). by apply elem_of_nil in Hf.
  - rewrite scheduled_watch_cons. case_bool_decide as Hw.
    + rewrite IH. split.
      * intros (Hd & g & Hg & ->). split; [done|]. exists g.
        split; [by apply list_elem_of_further|done].
      * intros (Hd & g & Hg & ->). split; [done|].
        apply elem_of_cons in Hg as [->|Hg]; [done|]. by exists g.
    + rewrite elem_of_cons, IH. split.
      * intros [-> | (Hd & g & Hg & ->)].
        -- split; [done|]. exists f. split; [apply list_elem_of_here|done].
        -- split; [intros ?; apply Hd, elem_of_union; by right|]. exists g.
           split; [by apply list_elem_of_further|done].
      * intros (Hd & g & Hg & ->).
        destruct (decide (parent_directory cwd g = parent_directory cwd f))
          as [Heq|Hne]; [by left|right].
        split; [by intros [?%elem_of_singleton|?]%elem_of_union|].
        apply elem_of_cons in Hg as [->|Hg]; [done|]. by exists g.
Qed.

(** X3.  The loop of lines 178 to 183 hands to the observer exactly the parent
    directories of the tracked files, each of them once, however many
    tracked files share it. *)
Theorem watch_schedules_each_parent_once cwd files :
  NoDup (scheduled (watch cwd ∅ files))
  ∧ ∀ d, d ∈ scheduled (watch cwd ∅ files)
         ↔ ∃ f, f ∈ files ∧ d = parent_directory cwd f.
Proof.
  split.
  - generalize (∅ : gset string) as watched.
    induction files as [|f files IH]; intros watched; [constructor|].
    rewrite scheduled_watch_cons. case_bool_decide as Hw; [apply IH|].
    apply NoDup_cons. split; [|apply IH].
    rewrite scheduled_watch_spec. intros [Hd _].
    apply Hd, elem_of_union. left. by apply elem_of_singleton.
  - intros d. rewrite scheduled_watch_spec. split; [by intros [_ ?]|].
    intros H. split; [apply not_elem_of_empty|done].
Qed.

Lemma watch_logs_each_directory_aux cwd watched files :
  logs (watch cwd watched files)
  = (λ d, (INFO, WatchingDirectory d)) <$> scheduled (watch cwd watched files).
Proof.
  revert watched. induction files as [|f files IH]; intros watched; [done|].
  cbn [watch]. destruct (negb _); [|apply IH]. cbn.
  f_equal. apply IH.
Qed.

(** X4.  Every directory handed to the observer is announced in the log, in
    the same order, and nothing else is logged by the loop. *)
Theorem watch_logs_each_directory cwd files :
  logs (watch cwd ∅ files)
  = (λ d, (INFO, WatchingDirectory d)) <$> scheduled (watch cwd ∅ files).
Proof. apply watch_logs_each_directory_aux. Qed.

(** ** The dict of tracked files *)

Lemma foldl_insert_lookup_notin (pairs : list (string * string))
    (d : gmap string string) k :
  k ∉ pairs.*1 →
  foldl (λ d kv, <[kv.1 := kv.2]> d) d pairs !! k = d !! k.
Proof.
  revert d. induction pairs as [|[k' v] pairs IH]; intros d Hk; [done|].
  cbn in *. apply not_elem_of_cons in Hk as [Hne Hk].
  rewrite IH by done. by rewrite lookup_insert_ne.
Qed.

Lemma dict_last_wins l1 k v l2 :
  k ∉ l2.*1 → dict (l1 ++ (k, v) :: l2) !! k = Some v.
Proof.
  intros Hk. unfold dict. rewrite foldl_app. cbn.
  rewrite foldl_insert_lookup_notin by done. apply lookup_insert_eq.
Qed.

Lemma dict_zip_lookup (files names : list string) i f n :
  files !! i = Some f →
  names !! i = Some n →
  f ∉ drop (S i) files →
  dict (zip files names) !! f = Some n.
Proof.
  intros Hf Hn Hlast.
  assert (Hzip : zip files names
                 = zip (take i files) (take i names)
                   ++ (f, n) :: zip (drop (S i) files) (drop (S i) names)).
  { rewrite <- (take_drop_middle _ _ _ Hf) at 1.
    rewrite <- (take_drop_middle _ _ _ Hn) at 1.
    apply lookup_lt_Some in Hf, Hn.
    rewrite zip_with_app by (rewrite !length_take_le by lia; done). done. }
  rewrite Hzip. apply dict_last_wins. intros Hin.
  apply list_elem_of_fmap in Hin as ([f' n'] & -> & Hin).
  apply elem_of_zip_l in Hin. contradiction.
Qed.

(** X5.  [dict(zip(config_files, config_names))] pairs the files and the names
    by position, and when a file is given more than once the name at its
    last position is the one the handler uses. *)
Theorem config_name_is_last_given args i f n :
  args_config_files args !! i = Some f →
  args_config_names args !! i = Some n →
  f ∉ drop (S i) (args_config_files args) →
  config_files (event_handler_of args) !! f = Some n.
Proof. intros Hf Hn Hlast. cbn. by apply dict_zip_lookup with i. Qed.

Lemma config_name_is_last_given_witness :
  config_files (event_handler_of
                  (mkArgs ["app.conf"; "settings.yaml"; "app.conf"]
                          ["first"; "settings"; "second"] "baseline" 1 false false))
    !! "app.conf"
  = Some "second".
Proof.
  apply (config_name_is_last_given _ 2); [reflexivity | reflexivity |].
  cbn. apply not_elem_of_nil.
Defined.

(** X6.  For arguments that name each file once, a notification for the file
    at position [i] is checked against
    [<baseline_dir>/<name at position i>.yaml]: that path is the first
    thing the handler asks the filesystem about. *)
Theorem notification_consults_its_baseline args w i f n :
  NoDup (args_config_files args) →
  args_config_files args !! i = Some f →
  args_config_names args !! i = Some n →
  ∃ t, trace (on_modified (event_handler_of args) w (mkEvent false f))
       = Exists (posixpath.join (args_baseline_dir args) (n +:+ ".yaml")) :: t.
Proof.
  intros Hnd Hf Hn.
  assert (Hname : config_files (event_handler_of args) !! f = Some n).
  { cbn. apply dict_zip_lookup with i; [done..|].
    intros Hin. apply list_elem_of_lookup in Hin as [j Hj].
    rewrite lookup_drop in Hj.
    pose proof (NoDup_lookup _ _ _ _ Hnd Hf Hj). lia. }
  rewrite on_modified_qualifies by (by apply qualifies_tracked with n).
  cbn [src_path]. rewrite (check_config_drift_tracked _ _ _ _ Hname).
  cbn zeta. unfold baseline_path_of. cbn [baseline_dir event_handler_of].
  repeat case_match; cbn; by eexists.
Qed.

Lemma notification_consults_its_baseline_witness :
  ∃ t, trace (on_modified (event_handler_of Scenario.args_abs)
                Scenario.world_without_baseline
                (mkEvent false "/srv/settings.yaml"))
       = Exists "baseline/settings.yaml" :: t.
Proof.
  refine (notification_consults_its_baseline Scenario.args_abs
            Scenario.world_without_baseline 1 "/srv/settings.yaml" "settings"
            _ eq_refl eq_refl).
  apply (bool_decide_unpack _). reflexivity.
Defined.

(** ** What a check touches *)

(** X7.  A check opens the tracked file first and its baseline second, and
    nothing else: no file at all when the baseline does not exist, and
    not the baseline when the tracked file could not be loaded. *)
Theorem check_opens_current_then_baseline self w filepath name :
  config_files self !! filepath = Some name →
  opened (trace (check_config_drift self w filepath))
  = if path_exists (fs w) (baseline_path_of self name)
    then match read (fs w) filepath with
         | inl _ => [filepath]
         | inr _ => [filepath; baseline_path_of self name]
         end
    else [].
Proof.
  intros Hname. rewrite (check_config_drift_tracked _ _ _ _ Hname). cbn zeta.
  repeat case_match; done.
Qed.

Lemma check_opens_current_then_baseline_witness :
  opened (trace (check_config_drift Scenario.handler
                   (Scenario.world (Scenario.doc (Scenario.setting1 "value1"))
                                   (File (inl (OSError "Permission denied"))))
                   "/srv/app.conf"))
  = ["/srv/app.conf"].
Proof.
  exact (check_opens_current_then_baseline Scenario.handler
           (Scenario.world (Scenario.doc (Scenario.setting1 "value1"))
                           (File (inl (OSError "Permission denied"))))
           "/srv/app.conf" "app_config" eq_refl).
Defined.

(** X8.  What a check does is decided by two paths only, the tracked file and
    its baseline: in two worlds that agree on them the check does the
    same, whatever else differs on the filesystem. *)
Theorem check_depends_on_two_paths self w w' filepath name :
  config_files self !! filepath = Some name →
  fs w !! filepath = fs w' !! filepath →
  fs w !! baseline_path_of self name = fs w' !! baseline_path_of self name →
  (∀ d, str_diff w d = str_diff w' d) →
  check_config_drift self w filepath = check_config_drift self w' filepath.
Proof.
  intros Hname Hcur Hbase Hstr.
  rewrite !(check_config_drift_tracked _ _ _ _ Hname). cbn zeta.
  unfold path_exists, read. rewrite Hcur, Hbase.
  repeat case_match; rewrite ?Hstr in *; congruence.
Qed.

Lemma check_depends_on_two_paths_witness :
  check_config_drift Scenario.handler
    (Scenario.world (Scenario.doc (Scenario.setting1 "value1"))
                    (Scenario.doc (Scenario.setting1 "value2")))
    "/srv/app.conf"
  = check_config_drift Scenario.handler
      (mkWorld (delete "settings.yaml"
                  (Scenario.files (Scenario.doc (Scenario.setting1 "value1"))
                                  (Scenario.doc (Scenario.setting1 "value2"))))
               Scenario.show)
      "/srv/app.conf".
Proof.
  apply (check_depends_on_two_paths Scenario.handler _ _ "/srv/app.conf"
           "app_config"); reflexivity.
Defined.

(** X9.  Called on a path that is not a key of [config_files], the check asks
    nothing of the filesystem and opens no file: the [KeyError] of line 64
    is caught and logged as the one record of the check. *)
Theorem check_of_untracked_path self w filepath :
  config_files self !! filepath = None →
  checks (trace (check_config_drift self w filepath)) = 0
  ∧ opened (trace (check_config_drift self w filepath)) = []
  ∧ logs (trace (check_config_drift self w filepath))
    = [(ERROR, CheckFailed filepath (KeyError filepath))]
  ∧ outcome (check_config_drift self w filepath) = inr tt.
Proof.
  intros Hname. by rewrite check_config_drift_untracked.
Qed.

Lemma check_of_untracked_path_witness :
  logs (trace (check_config_drift Scenario.handler
                 Scenario.world_without_baseline "/srv/notes.txt"))
  = [(ERROR, CheckFailed "/srv/notes.txt" (KeyError "/srv/notes.txt"))].
Proof.
  apply (check_of_untracked_path Scenario.handler
           Scenario.world_without_baseline "/srv/notes.txt").
  reflexivity.
Defined.

(** ** The path of a baseline *)

Lemma isabs_append name suffix :
  name ≠ "" → posixpath.isabs (name +:+ suffix) = posixpath.isabs name.
Proof. by destruct name. Qed.

(** X10.  [os.path.join] drops the baseline directory when the config name is
    an absolute path: the baseline of such a config is looked for at
    [<config_name>.yaml], outside the baseline directory. *)
Theorem absolute_config_name_leaves_baseline_dir self name :
  posixpath.isabs name = true →
  baseline_path_of self name = name +:+ ".yaml".
Proof.
  intros Habs. unfold baseline_path_of, posixpath.join.
  rewrite isabs_append by (by destruct name). by rewrite Habs.
Qed.

Lemma absolute_config_name_leaves_baseline_dir_witness :
  baseline_path_of Scenario.handler "/etc/app" = "/etc/app.yaml".
Proof.
  apply (absolute_config_name_leaves_baseline_dir Scenario.handler "/etc/app").
  reflexivity.
Defined.

(** X11.  For a config name that is not absolute and a baseline directory given
    without a trailing separator, the baseline is
    [<baseline_dir>/<config_name>.yaml]. *)
Theorem baseline_path_in_baseline_dir self name :
  posixpath.isabs name = false →
  baseline_dir self ≠ "" →
  posixpath.endswith_sep (baseline_dir self) = false →
  baseline_path_of self name = baseline_dir self +:+ "/" +:+ name +:+ ".yaml".
Proof.
  intros Hrel Hne Hsep. unfold baseline_path_of, posixpath.join.
  assert (Habs : posixpath.isabs (name +:+ ".yaml") = false).
  { destruct name; [done|]. by rewrite isabs_append. }
  rewrite Habs, Hsep, bool_decide_eq_false_2 by done. done.
Qed.

Lemma baseline_path_in_baseline_dir_witness :
  baseline_path_of Scenario.handler "app_config" = "baseline/app_config.yaml".
Proof.
  apply (baseline_path_in_baseline_dir Scenario.handler "app_config");
    [reflexivity | discriminate | reflexivity].
Defined.

(** ** What the flags and the delivery do not change *)

Lemma dispatch_ignores_version_control cf bd vc vc' batch :
  dispatch (mkHandler cf bd vc) batch = dispatch (mkHandler cf bd vc') batch.
Proof.
  induction batch as [|[w event] rest IH]; [done|].
  cbn [dispatch]. rewrite IH. reflexivity.
Qed.

(** X12.  [--version-control] changes nothing of what the program does:
    the same effects in the same order and the same exit status,
    whatever the flag. *)
Theorem version_control_changes_nothing cwd startup args run vc :
  main cwd startup (with_version_control vc args) run
  = main cwd startup args run.
Proof.
  unfold main.
  change (validate_input startup (with_version_control vc args))
    with (validate_input startup args).
  change (configure_logging (with_version_control vc args))
    with (configure_logging args).
  destruct (validate_input startup args) as [e|[]]; [done|].
  cbn [with_version_control args_config_files args_config_names
       args_baseline_dir args_interval args_version_control].
  destruct (time.sleep (args_interval args)); [done|].
  do 3 f_equal. apply flat_map_ext. intros batch.
  by rewrite (dispatch_ignores_version_control _ _ vc (args_version_control args)).
Qed.

(** X13.  Delivering a batch does what delivering its qualifying notifications
    alone does: the others leave no trace. *)
Theorem dispatch_skips_filtered self batch :
  dispatch self batch
  = dispatch self (filter (λ n, qualifies self n = true) batch).
Proof.
  induction batch as [|[w event] rest IH]; [done|].
  rewrite filter_cons. destruct (qualifies self (w, event)) eqn:Hq.
  - rewrite decide_True by done. by rewrite !dispatch_cons, IH.
  - rewrite decide_False by (by intros ?).
    rewrite dispatch_cons, on_modified_filtered by done. cbn [trace fst app].
    rewrite <- IH. by destruct (dispatch self rest).
Qed.





(** ** The watched directories are absolute *)

Lemma lstrip_stops_at_last f l c :
  f c = false → ∃ l', posixpath.lstrip f (l ++ [c]) = l' ++ [c].
Proof.
  intros Hc. induction l as [|a l IH]; cbn.
  - rewrite Hc. by exists [].
  - destruct (f a); [done|]. by exists (a :: l).
Qed.

Lemma lstrip_keeps_last f l c :
  forallb f l = false → ∃ l', posixpath.lstrip f (l ++ [c]) = l' ++ [c].
Proof.
  induction l as [|a l IH]; cbn; [done|].
  destruct (f a); cbn; [done|]. intros _. by exists (a :: l).
Qed.

Lemma forallb_rev {A} (f : A → bool) l : forallb f (rev l) = forallb f l.
Proof.
  induction l as [|a l IH]; [done|].
  cbn. rewrite forallb_app, IH. cbn. by rewrite andb_true_r, andb_comm.
Qed.

Lemma isabs_chars p :
  posixpath.isabs p = true ↔ ∃ cs, posixpath.chars p = posixpath.sep :: cs.
Proof.
  unfold posixpath.isabs, posixpath.is_sep.
  destruct (posixpath.chars p) as [|c cs]; split.
  - done.
  - by intros [? ?].
  - intros ->%bool_decide_eq_true. by exists cs.
  - intros [cs' [= -> _]]. by apply bool_decide_eq_true.
Qed.

Lemma isabs_str cs :
  posixpath.isabs (posixpath.str (posixpath.sep :: cs)) = true.
Proof.
  apply isabs_chars. exists cs. unfold posixpath.chars, posixpath.str.
  by rewrite list_ascii_of_string_of_list_ascii.
Qed.

Lemma isabs_str_nonempty cs tail :
  posixpath.isabs
    (let path' := posixpath.str (posixpath.sep :: cs) +:+ tail in
     if bool_decide (path' = "") then "." else path') = true.
Proof.
  cbn zeta. unfold posixpath.str. cbn [string_of_list_ascii String.append].
  by rewrite bool_decide_eq_false_2.
Qed.

Lemma dirname_absolute p :
  posixpath.isabs p = true → posixpath.isabs (posixpath.dirname p) = true.
Proof.
  intros [cs Hp]%isabs_chars. unfold posixpath.dirname. rewrite Hp.
  cbn [rev].
  destruct (lstrip_stops_at_last (λ c, negb (posixpath.is_sep c)) (rev cs)
              posixpath.sep eq_refl) as [l' ->].
  rewrite rev_unit. cbn [is_empty negb andb forallb].
  change (posixpath.is_sep posixpath.sep) with true. cbn [andb].
  destruct (forallb posixpath.is_sep (rev l')) eqn:Hall; cbn [negb].
  - apply isabs_str.
  - change (posixpath.sep :: rev l') with (rev [posixpath.sep] ++ rev l').
    rewrite <- rev_app_distr, rev_involutive. rewrite forallb_rev in Hall.
    destruct (lstrip_keeps_last posixpath.is_sep l' posixpath.sep Hall)
      as [l'' ->].
    rewrite rev_unit. apply isabs_str.
Qed.

Lemma normpath_absolute p :
  posixpath.isabs p = true → posixpath.isabs (posixpath.normpath p) = true.
Proof.
  intros Habs. destruct p as [|c s]; [done|].
  assert (c = posixpath.sep) as ->.
  { unfold posixpath.isabs, posixpath.is_sep in Habs. cbn in Habs.
    by apply bool_decide_eq_true in Habs. }
  assert (Hs : posixpath.startswith "/" (String posixpath.sep s) = true).
  { unfold posixpath.startswith. cbn. by destruct s. }
  unfold posixpath.normpath. rewrite bool_decide_eq_false_2 by done.
  rewrite Hs. cbn [negb].
  destruct (posixpath.startswith "//" _ && negb (posixpath.startswith "///" _));
    cbn [replicate]; apply isabs_str_nonempty.
Qed.

Lemma abspath_absolute cwd path :
  posixpath.isabs cwd = true →
  posixpath.isabs (posixpath.abspath cwd path) = true.
Proof.
  intros Hcwd. unfold posixpath.abspath. apply normpath_absolute.
  destruct (posixpath.isabs path) eqn:Hpath; [done|].
  unfold posixpath.join. rewrite Hpath.
  assert (Hne : cwd ≠ "") by (by destruct cwd).
  destruct (_ || _); by rewrite isabs_append.
Qed.

(** X15.  When the program runs in a working directory given by an absolute
    path, every directory it hands to the observer is an absolute path,
    whether the tracked files were given by relative or absolute paths. *)
Theorem watched_directories_are_absolute cwd files d :
  posixpath.isabs cwd = true →
  d ∈ scheduled (watch cwd ∅ files) →
  posixpath.isabs d = true.
Proof.
  intros Hcwd Hd. apply scheduled_watch_spec in Hd as (_ & f & _ & ->).
  unfold parent_directory. by apply dirname_absolute, abspath_absolute.
Qed.

Lemma watched_directories_are_absolute_witness :
  posixpath.isabs "/srv/conf" = true.
Proof.
  apply (watched_directories_are_absolute "/srv/app"
           ["../conf/app.conf"; "settings.yaml"] "/srv/conf");
    [reflexivity|].
  apply (bool_decide_unpack _). reflexivity.
Defined.

(** ** Relative tracked paths *)






(** ** An interval that [time.sleep] refuses *)

Example sleep_negative : time.sleep (-1) = inl time.SleepValueError.
Proof. reflexivity. Qed.

Example sleep_too_long :
  time.sleep 99999999999999999999 = inl time.SleepOverflowError.
Proof. reflexivity. Qed.

(** With [-i -1] the observer is started and stopped at once: no
    notification is handled, no stop is logged and the status is 1. *)
Example negative_interval_ends_the_program :
  main "/srv" Scenario.startup (with_interval (-1) Scenario.args_abs)
       [[(Scenario.world_without_baseline, Scenario.modified "/srv/app.conf")]]
  = ([Schedule "/srv"; Log INFO (WatchingDirectory "/srv"); ObserverStart;
      Log INFO MonitorStarted; ObserverStop; ObserverJoin], 1%Z).
Proof. reflexivity. Qed.

(** With [--debug] the level of the root logger is set first, also when
    the arguments are then refused. *)
Example debug_sets_the_level_first :
  main "/srv" Scenario.startup
       (mkArgs ["app.conf"] [] "baseline" 1 false true) []
  = ([SetLevel DEBUG; Log ERROR (InputValidationError CountMismatch)], 1%Z).
Proof. reflexivity. Qed.
